(** * Conceptual-soundness verdicts: a model of [conceptually.py]

    The development embeds [llm_qus_analyzer/individual/conceptually.py]:
    the response parser [CSVerdictParserModel.__parser], the two analysis
    entry points [analyze_single] / [analyze_list] and the class method
    [ConceptuallySoundAnalyzer.__not_violated].

    Python values are dynamically typed, so the parser is modelled over a
    type of JSON-like Python values, exceptions are explicit outcomes, and
    the calls made to the external [LLMAnalyzer] are recorded in a trace. *)

From Stdlib Require Import ZArith Floats.SpecFloat.
From stdpp Require Import gmap strings list fin_maps.

Open Scope string_scope.
Open Scope list_scope.

Local Set Warnings "-register-all,-notation-for-abbreviation".

(** ** Python values *)

(** What [json.loads] can hand to the parser: [None], booleans, integers,
    floats, strings, lists, and dicts keyed by strings. *)
Inductive pyval : Type :=
| PyNone
| PyBool (b : bool)
| PyInt (z : Z)
| PyFloat (f : spec_float)
| PyStr (s : string)
| PyList (l : list pyval)
| PyDict (d : gmap string pyval).

(** Exceptions raised by the modelled code, and those of the external
    collaborators ([External]). *)
Inductive exn : Type :=
| TypeError (msg : string)
| AttributeError (msg : string)
| External (msg : string).

Inductive outcome (A : Type) : Type :=
| Return (a : A)
| Raise (e : exn).
Arguments Return {A} a.
Arguments Raise {A} e.

(** [isinstance(v, dict)], [isinstance(v, list)], [isinstance(v, str)],
    [v is None]. *)
Definition is_dict (v : pyval) : bool :=
  match v with PyDict _ => true | _ => false end.
Definition is_list (v : pyval) : bool :=
  match v with PyList _ => true | _ => false end.
Definition is_str (v : pyval) : bool :=
  match v with PyStr _ => true | _ => false end.
Definition is_none (v : pyval) : bool :=
  match v with PyNone => true | _ => false end.

(** [isinstance(v, bool)]: an [int] is not a [bool]. *)
Definition is_bool (v : pyval) : bool :=
  match v with PyBool _ => true | _ => false end.

(** Python truthiness, the test behind [if v] and [not v]. *)
Definition truthy (v : pyval) : bool :=
  match v with
  | PyNone => false
  | PyBool b => b
  | PyInt z => negb (z =? 0)%Z
  | PyFloat (S754_zero _) => false
  | PyFloat _ => true
  | PyStr s => negb (String.eqb s "")
  | PyList l => match l with [] => false | _ => true end
  | PyDict d => negb (bool_decide (d = ∅))
  end.

(** [d.get(key, default)] on a dict with string keys. *)
Definition dict_get (d : gmap string pyval) (key : string) (dflt : pyval) : pyval :=
  default dflt (d !! key).

(** Lists and dicts are unhashable: using one as a dict key raises. *)
Definition hashable (v : pyval) : bool :=
  match v with
  | PyList _ | PyDict _ => false
  | _ => true
  end.

Definition type_name (v : pyval) : string :=
  match v with
  | PyNone => "NoneType"
  | PyBool _ => "bool"
  | PyInt _ => "int"
  | PyFloat _ => "float"
  | PyStr _ => "str"
  | PyList _ => "list"
  | PyDict _ => "dict"
  end.

Definition unhashable (v : pyval) : exn :=
  TypeError ("unhashable type: '" +:+ type_name v +:+ "'").

(** ** Verdict data *)

(** The object bound to a violation's [parts]: the set display [{part}]
    builds a set, while the literal [{}] is Python's empty dict. *)
Inductive parts_obj : Type :=
| PartsSet (s : gset string)
| PartsDict (d : gmap string pyval).

(** The strings one meets when iterating over [parts]. *)
Definition parts_elements (p : parts_obj) : gset string :=
  match p with
  | PartsSet s => s
  | PartsDict d => dom d
  end.

Definition is_set (p : parts_obj) : bool :=
  match p with PartsSet _ => true | PartsDict _ => false end.

(** Modelled from the spec: the class [Violation] of [llm_qus_analyzer/type.py]
    is not part of the sources; the spec gives it the three fields
    [parts], [issue] and [suggestion], which the constructor stores as
    they are passed. *)
Record Violation : Type := mkViolation {
  parts : parts_obj;
  issue : pyval;
  suggestion : pyval
}.

(** The dataclass [CSVerdictData]; a dataclass does not check or convert
    its fields, so [valid] holds whatever value it is given. *)
Record CSVerdictData : Type := mkCSVerdictData {
  valid : pyval;
  violations : list Violation
}.

(** ** The parser *)

Definition _PART_MAP : gmap string string :=
  {[ "[Means]" := "means"; "[Ends]" := "ends" ]}.

(** [_PART_MAP.get(key)]: hashing the key comes first. *)
Definition part_map_get (key : pyval) : outcome (option string) :=
  match key with
  | PyStr s => Return (_PART_MAP !! s)
  | PyList _ | PyDict _ => Raise (unhashable key)
  | _ => Return None
  end.

(** [{part} if part else {}] *)
Definition parts_of (part : option string) : parts_obj :=
  match part with
  | Some p => if negb (String.eqb p "") then PartsSet {[ p ]} else PartsDict ∅
  | None => PartsDict ∅
  end.

(** Lines 90-94: the coercion of the ["valid"] entry. *)
Definition parse_valid (raw_json : gmap string pyval) : pyval :=
  let valid := dict_get raw_json "valid" (PyBool false) in
  match valid with
  | PyStr s => PyBool (bool_decide (s = "true"))
  | PyNone => PyBool false
  | _ => valid
  end.

(** Lines 100-109: the loop over [tmp], appending to [violations]. *)
Fixpoint collect (tmp : list pyval) (violations : list Violation)
  : outcome (list Violation) :=
  match tmp with
  | [] => Return violations
  | t :: rest =>
      match t with
      | PyDict t =>
          match part_map_get (dict_get t "part" (PyStr "")) with
          | Raise e => Raise e
          | Return part =>
              collect rest
                (violations ++
                   [mkViolation (parts_of part)
                                (dict_get t "issue" (PyStr ""))
                                (dict_get t "suggestion" PyNone)])
          end
      | _ => collect rest violations
      end
  end.

Definition default_vio : Violation :=
  mkViolation (PartsDict ∅) (PyStr "Unknown") (PyStr "Unknown").

(** [CSVerdictParserModel.__parser] *)
Definition parser (raw_json : pyval) : outcome CSVerdictData :=
  match raw_json with
  | PyDict raw =>
      let valid := parse_valid raw in
      let tmp := dict_get raw "violations" (PyList []) in
      match (match tmp with
             | PyList tmp => collect tmp []
             | _ => Return []
             end) with
      | Raise e => Raise e
      | Return violations =>
          let violations :=
            if negb (truthy valid) && (List.length violations =? 0)%nat
            then violations ++ [default_vio]
            else violations in
          Return (mkCSVerdictData valid violations)
      end
  | _ => Return (mkCSVerdictData (PyBool false) [])
  end.

(** ** Views on the parser used in the statements *)

(** The lookup [_PART_MAP.get(key)] once the key is known to hash. *)
Definition part_of_key (key : pyval) : option string :=
  match key with
  | PyStr s => _PART_MAP !! s
  | _ => None
  end.

(** An entry the loop can process: anything that is not a dict (skipped),
    or a dict whose ["part"] value can be hashed. *)
Definition entry_ok (t : pyval) : bool :=
  match t with
  | PyDict t => hashable (dict_get t "part" (PyStr ""))
  | _ => true
  end.

(** What the loop body appends for one entry that it can process: one
    violation for a dict, nothing for anything else. *)
Definition entry_violation (t : pyval) : option Violation :=
  match t with
  | PyDict t =>
      Some (mkViolation (parts_of (part_of_key (dict_get t "part" (PyStr ""))))
                        (dict_get t "issue" (PyStr ""))
                        (dict_get t "suggestion" PyNone))
  | _ => None
  end.

(** The list the parser iterates over: the ["violations"] value when it
    is a list, nothing otherwise. *)
Definition violation_entries (raw : gmap string pyval) : list pyval :=
  match dict_get raw "violations" (PyList []) with
  | PyList tmp => tmp
  | _ => []
  end.

(** The placeholder is appended after the loop when the verdict is falsy
    and the loop produced nothing. *)
Definition with_placeholder (valid : pyval) (vs : list Violation) : list Violation :=
  if negb (truthy valid) && (List.length vs =? 0)%nat
  then vs ++ [default_vio] else vs.

(** The parser returns exactly on the inputs whose entries all hash. *)
Definition parses (raw_json : pyval) : bool :=
  match raw_json with
  | PyDict raw => forallb entry_ok (violation_entries raw)
  | _ => true
  end.

(** ** Components and call arguments *)

(** Modelled from the spec: [QUSComponent] of [llm_qus_analyzer/chunker/models.py]
    is not part of the sources; the spec gives it the optional string
    fields [means] and [ends], the only ones this module reads. *)
Record QUSComponent : Type := mkQUSComponent {
  means : option string;
  ends : option string
}.

(** Python binds arguments by position, whatever their type: the objects
    that reach the parameters [model_idx] and [component]. *)
Inductive pyarg : Type :=
| ArgInt (z : Z)
| ArgComponent (c : QUSComponent).

Definition no_attribute (o : pyarg) (name : string) : exn :=
  match o with
  | ArgInt _ => AttributeError ("'int' object has no attribute '" +:+ name +:+ "'")
  | ArgComponent _ =>
      AttributeError ("'QUSComponent' object has no attribute '" +:+ name +:+ "'")
  end.

(** [o.means] and [o.ends] *)
Definition getattr_means (o : pyarg) : outcome (option string) :=
  match o with
  | ArgComponent c => Return (means c)
  | ArgInt _ => Raise (no_attribute o "means")
  end.

Definition getattr_ends (o : pyarg) : outcome (option string) :=
  match o with
  | ArgComponent c => Return (ends c)
  | ArgInt _ => Raise (no_attribute o "ends")
  end.

(** Truthiness of an [Optional[str]]: [None] and [""] are falsy. *)
Definition truthy_opt (s : option string) : bool :=
  match s with
  | None => false
  | Some s => negb (String.eqb s "")
  end.

(** ** The analysis entry points *)

Section Analyzer.

(** The collaborators: the client handle, the usage object returned with
    each verdict, and whatever state the LLM backend keeps. *)
Context {Client LLMResult World : Type}.

(** [LLMAnalyzer.run(client, model_idx, values)], taken as given: it may
    change the world, and it returns a verdict with its usage or raises. *)
Variable analyzer_run :
  Client → pyarg → gmap string (option string) → World →
  outcome (CSVerdictData * LLMResult) * World.

(** The calls made while a method runs, oldest first. *)
Inductive event : Type :=
| CallAnalyzeSingle (client : Client) (model_idx component : pyarg)
| CallRun (client : Client) (model_idx : pyarg)
          (values : gmap string (option string)).

Record state : Type := mkState {
  world : World;
  trace : list event
}.

(** Computations that thread the state and may raise. *)
Definition M (A : Type) : Type := state → outcome A * state.

Definition ret {A} (a : A) : M A := fun st => (Return a, st).
Definition bind {A B} (m : M A) (k : A → M B) : M B :=
  fun st =>
    match m st with
    | (Return a, st') => k a st'
    | (Raise e, st') => (Raise e, st')
    end.
Definition lift {A} (o : outcome A) : M A := fun st => (o, st).
Definition record (ev : event) : M unit :=
  fun st => (Return tt, mkState (world st) (trace st ++ [ev])).

Notation "'let!' x ':=' m 'in' k" := (bind m (fun x => k))
  (at level 10, x name, m at level 100, k at level 200).
Notation "'do!' m 'in' k" := (bind m (fun _ => k))
  (at level 10, m at level 100, k at level 200).

(** [self.__analyzer.run(client, model_idx, values)] *)
Definition call_run (client : Client) (model_idx : pyarg)
    (values : gmap string (option string))
  : M (CSVerdictData * LLMResult) :=
  do! record (CallRun client model_idx values) in
  fun st =>
    let '(r, w) := analyzer_run client model_idx values (world st) in
    (r, mkState w (trace st)).

(** [CSVerdictParserModel.analyze_single] *)
Definition analyze_single (client : Client) (model_idx component : pyarg)
  : M (list Violation * option LLMResult) :=
  do! record (CallAnalyzeSingle client model_idx component) in
  let! m := lift (getattr_means component) in
  match m with
  | None => ret ([], None)
  | Some _ =>
      let! m := lift (getattr_means component) in
      let! e := lift (getattr_ends component) in
      let values : gmap string (option string) :=
        {[ "means" := m; "ends" := e ]} in
      let! r := call_run client model_idx values in
      ret (violations (fst r), Some (snd r))
  end.

(** The list comprehension of [analyze_list]: each result is appended
    to the list under construction. *)
Fixpoint comprehension (client : Client) (model_idx : pyarg)
    (components : list pyarg)
    (acc : list (list Violation * option LLMResult))
  : M (list (list Violation * option LLMResult)) :=
  match components with
  | [] => ret acc
  | component :: rest =>
      let! r := analyze_single client model_idx component in
      comprehension client model_idx rest (acc ++ [r])
  end.

(** [CSVerdictParserModel.analyze_list] *)
Definition analyze_list (client : Client) (model_idx : Z)
    (components : list QUSComponent)
  : M (list (list Violation * option LLMResult)) :=
  comprehension client (ArgInt model_idx) (ArgComponent <$> components) [].

(** [ConceptuallySoundAnalyzer.__not_violated]; the call on the shared
    parser passes [component] second and [model_idx] third. *)
Definition not_violated (client : Client) (model_idx : Z)
    (component : QUSComponent)
  : M (list Violation * option LLMResult) :=
  let means := means component in
  if negb (truthy_opt means) then ret ([], None)
  else
    let! r := analyze_single client (ArgComponent component) (ArgInt model_idx) in
    ret (fst r, snd r).

(** The state a call of [analyze_single] starts its body in. *)
Definition entered (client : Client) (model_idx component : pyarg)
    (st : state) : state :=
  mkState (world st)
          (trace st ++ [CallAnalyzeSingle client model_idx component]).

(** The reading of [analyze_list] as a pointwise map: the results of
    [f] on the elements, left to right, each call starting in the state
    the previous one left. *)
Inductive pointwise {A B} (f : A → M B)
  : list A → state → list B → state → Prop :=
| pointwise_nil st : pointwise f [] st [] st
| pointwise_cons x xs st r st1 rs st2 :
    f x st = (Return r, st1) →
    pointwise f xs st1 rs st2 →
    pointwise f (x :: xs) st (r :: rs) st2.

End Analyzer.

(** ** The analysis pipeline *)

(** [self.key], set in [CSVerdictParserModel.__init__]. *)
Definition key : string := "conceptually-sound".

Section Pipeline.

Context {Client LLMResult World : Type}.

Variable analyzer_run :
  Client → pyarg → gmap string (option string) → World →
  outcome (CSVerdictData * LLMResult) * World.

(** [analyze_individual_with_llm(llm_checker, client, model_idx, component)]
    of [llm_qus_analyzer/utils.py], taken as given: it receives the list of
    checkers and returns the violations with one usage, possibly [None],
    per checker, or raises. *)
Variable analyze_individual_with_llm :
  list (Client → Z → QUSComponent →
        @M Client World (list Violation * option LLMResult)) →
  Client → Z → QUSComponent →
  @M Client World (list Violation * list (option LLMResult)).

(** [{k: r for k, r in zip(task_keys, usages) if r is not None}]: the
    pairs are visited in order, a later pair with the same key replaces
    the earlier one. *)
Definition usage_dict (task_keys : list string)
    (usages : list (option LLMResult)) : gmap string LLMResult :=
  foldl (λ acc kr, match snd kr with
                   | Some r => <[ fst kr := r ]> acc
                   | None => acc
                   end)
        ∅ (zip task_keys usages).

(** [ConceptuallySoundAnalyzer.run] *)
Definition run (client : Client) (model_idx : Z) (component : QUSComponent)
  : @M Client World (list Violation * gmap string LLMResult) :=
  let llm_checker := [not_violated analyzer_run] in
  let task_keys := [key] in
  bind (analyze_individual_with_llm llm_checker client model_idx component)
       (λ vu,
          let llm_usage := usage_dict task_keys (snd vu) in
          ret (fst vu, llm_usage)).

End Pipeline.

(** ** Counting the requests *)

(** The calls of [LLMAnalyzer.run] in a trace: the requests sent to the
    backend. *)
Definition is_call_run {Client : Type} (ev : @event Client) : bool :=
  match ev with
  | CallRun _ _ _ => true
  | CallAnalyzeSingle _ _ _ => false
  end.

Definition run_calls {Client : Type} (tr : list (@event Client)) : nat :=
  List.length (List.filter is_call_run tr).

(** [component.means is not None] *)
Definition has_means (c : QUSComponent) : bool :=
  match means c with
  | Some _ => true
  | None => false
  end.

(** ** A canned backend *)

(** A backend that answers every request with the same JSON document and
    hands it to the parser, as [LLMAnalyzer] does with the parser it was
    built with. The client is a name, the usage the number of the
    request, the world the count of requests served. *)
Definition canned_reply : pyval :=
  PyDict {[ "valid" := PyStr "false";
            "violations" :=
              PyList [PyDict {[ "part" := PyStr "[Ends]";
                                "issue" := PyStr "states a feature";
                                "suggestion" := PyStr "state the benefit" ]}] ]}.

Definition canned_run (client : string) (model_idx : pyarg)
    (values : gmap string (option string)) (w : nat)
  : outcome (CSVerdictData * nat) * nat :=
  match parser canned_reply with
  | Return data => (Return (data, w), S w)
  | Raise e => (Raise e, S w)
  end.

Definition canned_data : CSVerdictData :=
  mkCSVerdictData (PyBool false)
    [mkViolation (PartsSet {[ "ends" ]}) (PyStr "states a feature")
                 (PyStr "state the benefit")].

Definition story_login : QUSComponent :=
  mkQUSComponent (Some "log in") (Some "see my orders").
Definition story_no_means : QUSComponent :=
  mkQUSComponent None (Some "save time").
Definition story_empty_means : QUSComponent :=
  mkQUSComponent (Some "") None.

Definition start : @state string nat := mkState 0 [].

(** A backend that serves one request and fails on every later one. *)
Definition flaky_run (client : string) (model_idx : pyarg)
    (values : gmap string (option string)) (w : nat)
  : outcome (CSVerdictData * nat) * nat :=
  match w with
  | O => canned_run client model_idx values w
  | S _ => (Raise (External "rate limit"), S w)
  end.

(** A stand-in for [analyze_individual_with_llm]: it calls the checkers
    in turn and gathers their violations and usages. *)
Fixpoint each_checker
    (checkers : list (string → Z → QUSComponent →
                      @M string nat (list Violation * option nat)))
    (client : string) (model_idx : Z) (component : QUSComponent)
  : @M string nat (list Violation * list (option nat)) :=
  match checkers with
  | [] => ret ([], [])
  | check :: rest =>
      bind (check client model_idx component)
           (λ r, bind (each_checker rest client model_idx component)
                      (λ rs, ret (fst r ++ fst rs, snd r :: snd rs)))
  end.

(** * Properties of the parser *)

(** ** The parser on two replies *)

Example parser_valid_reply :
  parser (PyDict {[ "valid" := PyBool true ]}) =
  Return (mkCSVerdictData (PyBool true) []).
Proof. vm_compute. reflexivity. Qed.

Example parser_invalid_reply :
  parser (PyDict {[ "valid" := PyStr "True";
                    "violations" :=
                      PyList [PyDict {[ "part" := PyStr "[Means]";
                                        "issue" := PyStr "two actions" ]};
                              PyInt 3] ]}) =
  Return (mkCSVerdictData (PyBool false)
            [mkViolation (PartsSet {[ "means" ]}) (PyStr "two actions") PyNone]).
Proof. vm_compute. reflexivity. Qed.

(** ** The loop over the ["violations"] list *)

Lemma part_map_get_hashable key :
  hashable key = true → part_map_get key = Return (part_of_key key).
Proof. by destruct key. Qed.

Lemma part_map_get_unhashable key :
  hashable key = false → part_map_get key = Raise (unhashable key).
Proof. by destruct key. Qed.

Lemma part_map_values s p :
  _PART_MAP !! s = Some p →
  (s = "[Means]" ∧ p = "means") ∨ (s = "[Ends]" ∧ p = "ends").
Proof.
  unfold _PART_MAP. intros H.
  destruct (decide (s = "[Means]")) as [->|Hm].
  - rewrite lookup_insert_eq in H. left. split; congruence.
  - rewrite lookup_insert_ne in H by done.
    destruct (decide (s = "[Ends]")) as [->|He].
    + rewrite lookup_singleton_eq in H. right. split; congruence.
    + by rewrite lookup_singleton_ne in H.
Qed.

Lemma collect_ok tmp acc :
  forallb entry_ok tmp = true →
  collect tmp acc = Return (acc ++ omap entry_violation tmp).
Proof.
  revert acc. induction tmp as [|t tmp IH]; intros acc Hok; simpl in *.
  - by rewrite app_nil_r.
  - apply andb_prop in Hok as [Ht Htmp].
    destruct t; simpl; try by apply IH.
    simpl in Ht. rewrite (part_map_get_hashable _ Ht).
    rewrite (IH _ Htmp). by rewrite <- app_assoc.
Qed.

Lemma collect_raise tmp acc :
  forallb entry_ok tmp = false →
  ∃ v, hashable v = false ∧ collect tmp acc = Raise (unhashable v).
Proof.
  revert acc. induction tmp as [|t tmp IH]; intros acc Hok; simpl in *.
  - discriminate.
  - apply andb_false_iff in Hok.
    destruct t; simpl in *;
      try (destruct Hok as [?|Hok]; [discriminate | by apply IH]).
    destruct (hashable (dict_get d "part" (PyStr ""))) eqn:Hh.
    + rewrite (part_map_get_hashable _ Hh).
      destruct Hok as [?|Hok]; [discriminate | by apply IH].
    + rewrite (part_map_get_unhashable _ Hh). eauto.
Qed.

Lemma parser_dict_ok raw :
  forallb entry_ok (violation_entries raw) = true →
  parser (PyDict raw) =
  Return (mkCSVerdictData (parse_valid raw)
            (with_placeholder (parse_valid raw)
               (omap entry_violation (violation_entries raw)))).
Proof.
  intros Hok. unfold parser, violation_entries, with_placeholder in *.
  destruct (dict_get raw "violations" (PyList [])); try done.
  by rewrite (collect_ok _ [] Hok).
Qed.

Lemma parser_dict_raise raw :
  forallb entry_ok (violation_entries raw) = false →
  ∃ v, hashable v = false ∧ parser (PyDict raw) = Raise (unhashable v).
Proof.
  intros Hok. unfold parser, violation_entries in *.
  destruct (dict_get raw "violations" (PyList [])); try discriminate.
  destruct (collect_raise _ [] Hok) as (v & Hv & ->). eauto.
Qed.

Lemma parser_non_dict raw_json :
  is_dict raw_json = false →
  parser raw_json = Return (mkCSVerdictData (PyBool false) []).
Proof. by destruct raw_json. Qed.

Lemma parser_returns_iff raw_json :
  (∃ v, parser raw_json = Return v) ↔ parses raw_json = true.
Proof.
  split.
  - intros [v Hv]. destruct (parses raw_json) eqn:Hp; [done|].
    destruct raw_json; try discriminate.
    destruct (parser_dict_raise _ Hp) as (k & _ & Hk). congruence.
  - intros Hp. destruct (is_dict raw_json) eqn:Hd.
    + destruct raw_json; try discriminate. rewrite parser_dict_ok; eauto.
    + rewrite parser_non_dict; eauto.
Qed.

(** ** Supporting facts on returned verdicts *)

Lemma parse_valid_cases raw :
  match raw !! "valid" with
  | None | Some PyNone => parse_valid raw = PyBool false
  | Some (PyStr s) => parse_valid raw = PyBool (bool_decide (s = "true"))
  | Some x => parse_valid raw = x
  end.
Proof.
  unfold parse_valid, dict_get.
  destruct (raw !! "valid") as [[]|]; reflexivity.
Qed.

(** Values under ["valid"] other than strings and [None] are kept. *)
Lemma parse_valid_not_coerced raw x :
  raw !! "valid" = Some x → is_str x = false → is_none x = false →
  parse_valid raw = x.
Proof.
  intros Hx Hs Hn. unfold parse_valid, dict_get. rewrite Hx.
  by destruct x.
Qed.

Lemma parser_valid raw v :
  parser (PyDict raw) = Return v → valid v = parse_valid raw.
Proof.
  intros Hv. destruct (forallb entry_ok (violation_entries raw)) eqn:Hok.
  - rewrite (parser_dict_ok _ Hok) in Hv. by inversion Hv.
  - destruct (parser_dict_raise _ Hok) as (k & _ & Hk). congruence.
Qed.

Lemma parser_violations raw v :
  parser (PyDict raw) = Return v →
  violations v =
  with_placeholder (valid v) (omap entry_violation (violation_entries raw)).
Proof.
  intros Hv. destruct (forallb entry_ok (violation_entries raw)) eqn:Hok.
  - rewrite (parser_dict_ok _ Hok) in Hv. by inversion Hv.
  - destruct (parser_dict_raise _ Hok) as (k & _ & Hk). congruence.
Qed.

(** On dict inputs the placeholder does its work: a falsy verdict never
    comes with an empty violation list. *)
Lemma parser_dict_invalid_has_violation raw v :
  parser (PyDict raw) = Return v →
  truthy (valid v) = false → violations v ≠ [].
Proof.
  intros Hv Hf. rewrite (parser_violations _ _ Hv).
  unfold with_placeholder. rewrite Hf. simpl.
  destruct (omap entry_violation (violation_entries raw)); simpl; done.
Qed.

Lemma parts_of_elements part :
  parts_elements (parts_of part) ⊆ from_option (λ p, {[ p ]}) ∅ part.
Proof.
  destruct part as [p|]; simpl; [|set_solver].
  destruct (negb (String.eqb p "")); simpl; set_solver.
Qed.

(** Whatever the parser returns, iterating over the [parts] of any of its
    violations only meets ["means"] and ["ends"]. *)
Lemma parser_parts_vocabulary raw_json v vio :
  parser raw_json = Return v → vio ∈ violations v →
  parts_elements (parts vio) ⊆ {[ "means"; "ends" ]}.
Proof.
  intros Hv Hin. destruct (is_dict raw_json) eqn:Hd.
  - destruct raw_json; try discriminate.
    rewrite (parser_violations _ _ Hv) in Hin. unfold with_placeholder in Hin.
    assert (vio = default_vio ∨
            vio ∈ omap entry_violation (violation_entries d)) as [->|Hin'].
    { destruct (_ && _); [|by right].
      apply elem_of_app in Hin as [?|Hin]; [by right|].
      left. by apply list_elem_of_singleton in Hin. }
    + simpl. set_solver.
    + apply list_elem_of_omap in Hin' as (t & _ & Ht).
      destruct t; try discriminate. simpl in Ht. inversion Ht; subst; simpl.
      etrans; [apply parts_of_elements|].
      destruct (part_of_key _) as [p|] eqn:Hp; simpl; [|set_solver].
      destruct (dict_get d0 "part" (PyStr "")); try discriminate.
      simpl in Hp. apply part_map_values in Hp as [[_ ->]|[_ ->]]; set_solver.
  - rewrite (parser_non_dict _ Hd) in Hv. inversion Hv; subst. simpl in Hin.
    by apply elem_of_nil in Hin.
Qed.

(** A ["violations"] value that is not a list counts for nothing: the
    parser behaves as on the dict without that key. *)
Lemma parser_violations_not_a_list raw x :
  raw !! "violations" = Some x → is_list x = false →
  parser (PyDict raw) = parser (PyDict (delete "violations" raw)).
Proof.
  intros Hx Hl.
  assert (violation_entries raw = []) as Hraw.
  { unfold violation_entries, dict_get. rewrite Hx. by destruct x. }
  assert (violation_entries (delete "violations" raw) = []) as Hdel.
  { unfold violation_entries, dict_get. by rewrite lookup_delete_eq. }
  assert (parse_valid (delete "violations" raw) = parse_valid raw) as Hval.
  { unfold parse_valid, dict_get. by rewrite lookup_delete_ne. }
  rewrite !parser_dict_ok by (by rewrite ?Hraw, ?Hdel).
  by rewrite Hraw, Hdel, Hval.
Qed.

(** ** Claims on the parser *)

(** C1. A verdict with [valid] false is meant to carry at least one
    violation, for every input. The early return for inputs that are not
    dicts breaks this: every such input gives [valid = False] together
    with an empty violation list, no placeholder being added. *)
Theorem parser_non_dict_invalid_and_empty raw_json :
  is_dict raw_json = false →
  ∃ v, parser raw_json = Return v ∧
       valid v = PyBool false ∧ violations v = [].
Proof.
  intros Hd. rewrite (parser_non_dict _ Hd). eexists. split; [reflexivity|].
  split; reflexivity.
Qed.

Lemma parser_non_dict_invalid_and_empty_witness :
  let raw_json := PyList [PyDict {[ "valid" := PyBool false ]}] in
  is_dict raw_json = false ∧
  ∃ v, parser raw_json = Return v ∧
       valid v = PyBool false ∧ violations v = [].
Proof.
  split; [reflexivity|].
  apply (parser_non_dict_invalid_and_empty
           (PyList [PyDict {[ "valid" := PyBool false ]}])).
  reflexivity.
Defined.

(** C3. The [parts] of a violation are meant to be a set over ["means"]
    and ["ends"], empty for an unknown ["part"]. Two inputs show the code
    doing otherwise: a ["part"] that is a list makes the lookup in
    [_PART_MAP] raise [TypeError], and for an unknown string the field is
    the literal [{}], an empty dict and not a set. *)
Theorem parser_parts_not_always_a_set :
  parser (PyDict {[ "violations" :=
            PyList [PyDict {[ "part" := PyList [PyStr "[Means]"] ]}] ]})
  = Raise (TypeError "unhashable type: 'list'")
  ∧
  (∃ v vio,
      parser (PyDict {[ "violations" :=
                PyList [PyDict {[ "part" := PyStr "[Other]" ]}] ]})
      = Return v ∧
      violations v = [vio] ∧
      parts vio = PartsDict ∅ ∧ is_set (parts vio) = false).
Proof.
  split; [vm_compute; reflexivity|].
  eexists. eexists. split; [vm_compute; reflexivity|].
  split; [reflexivity|]. split; reflexivity.
Qed.

(** C4. The [valid] field is meant to be a boolean for every input. An
    integer under ["valid"] is neither a string nor [None], so it is
    stored unchanged: the verdict's [valid] is that integer. *)
Theorem parser_valid_int_stays_int (z : Z) :
  parser (PyDict {[ "valid" := PyInt z ]})
  = Return (mkCSVerdictData (PyInt z)
              (if (z =? 0)%Z then [default_vio] else []))
  ∧ is_bool (PyInt z) = false.
Proof.
  split; [|reflexivity].
  assert (violation_entries {[ "valid" := PyInt z ]} = []) as Hnil.
  { unfold violation_entries, dict_get.
    by rewrite lookup_singleton_ne. }
  rewrite parser_dict_ok by (by rewrite Hnil).
  rewrite Hnil. unfold parse_valid, dict_get, with_placeholder.
  rewrite lookup_singleton_eq. simpl.
  by destruct (z =? 0)%Z.
Qed.

(** C5. The parser is meant to return a verdict for every JSON-like
    input. It raises [TypeError] when a violation entry has a list (or a
    dict) under ["part"], since that value is used as a dict key. *)
Theorem parser_raises_on_list_part :
  parser (PyDict {[ "valid" := PyBool false;
                    "violations" :=
                      PyList [PyDict {[ "part" := PyList [PyStr "[Means]"; PyStr "[Ends]"];
                                        "issue" := PyStr "too broad";
                                        "suggestion" := PyStr "split the story" ]}] ]})
  = Raise (TypeError "unhashable type: 'list'").
Proof. vm_compute. reflexivity. Qed.

(** C6. Every dict entry of the ["violations"] list is meant to give one
    violation, in order. With two dict entries of which the second has a
    dict under ["part"], the parser raises and no violation is produced,
    not even for the first entry. *)
Theorem parser_entries_lost_on_dict_part :
  parser (PyDict {[ "valid" := PyBool false;
                    "violations" :=
                      PyList [PyDict {[ "part" := PyStr "[Means]";
                                        "issue" := PyStr "two actions" ]};
                              PyDict {[ "part" := PyDict {[ "name" := PyStr "[Ends]" ]};
                                        "issue" := PyStr "no benefit" ]}] ]})
  = Raise (TypeError "unhashable type: 'dict'").
Proof. vm_compute. reflexivity. Qed.

(** C9. A string under ["valid"] becomes [True] exactly when it is the
    string ["true"], compared character by character; every other string
    becomes [False]. The verdict carries that value whenever the parser
    returns, which it does on every input it can process. *)
Theorem valid_string_exact_match raw s :
  raw !! "valid" = Some (PyStr s) →
  parse_valid raw = PyBool (bool_decide (s = "true")) ∧
  (parse_valid raw = PyBool true ↔ s = "true") ∧
  (parse_valid raw = PyBool false ↔ s ≠ "true") ∧
  (∀ v, parser (PyDict raw) = Return v →
        valid v = PyBool (bool_decide (s = "true"))) ∧
  (parses (PyDict raw) = true → ∃ v, parser (PyDict raw) = Return v).
Proof.
  intros Hs. pose proof (parse_valid_cases raw) as Hc. rewrite Hs in Hc.
  split; [done|]. rewrite Hc.
  split; [|split; [|split]].
  - case_bool_decide; split; congruence.
  - case_bool_decide; split; congruence.
  - intros v Hv. by rewrite (parser_valid _ _ Hv).
  - intros Hp. by apply parser_returns_iff.
Qed.

Lemma valid_string_exact_match_witness :
  let raw : gmap string pyval := {[ "valid" := PyStr "True" ]} in
  raw !! "valid" = Some (PyStr "True") ∧
  parse_valid raw = PyBool false ∧
  (∃ v, parser (PyDict raw) = Return v).
Proof.
  pose proof (valid_string_exact_match
                {[ "valid" := PyStr "True" ]} "True" eq_refl) as (H1 & _ & _ & _ & H5).
  split; [reflexivity|]. split; [exact H1|]. apply H5. reflexivity.
Defined.

Example valid_upper_case_is_false :
  parser (PyDict {[ "valid" := PyStr "TRUE" ]})
  = Return (mkCSVerdictData (PyBool false) [default_vio]).
Proof. vm_compute. reflexivity. Qed.

Example valid_lower_case_is_true :
  parser (PyDict {[ "valid" := PyStr "true" ]})
  = Return (mkCSVerdictData (PyBool true) []).
Proof. vm_compute. reflexivity. Qed.

(** * Properties of the analysis entry points *)

(** Unfolding of the entry points and of the monad they are written in. *)
Ltac unfold_single := unfold analyze_single, call_run, bind, record, lift, ret.
Ltac unfold_not_violated := unfold not_violated.
Ltac unfold_list := unfold analyze_list.

Section AnalyzerFacts.

Context {Client LLMResult World : Type}.
Variable analyzer_run :
  Client → pyarg → gmap string (option string) → World →
  outcome (CSVerdictData * LLMResult) * World.

Notation analyze_single := (analyze_single analyzer_run).
Notation comprehension := (comprehension analyzer_run).
Notation analyze_list := (analyze_list analyzer_run).
Notation not_violated := (not_violated analyzer_run).
Notation state := (@state Client World).
Notation M := (@M Client World).
Notation pointwise := (@pointwise Client World).
Notation result := (list Violation * option LLMResult)%type.

Lemma analyze_single_skip client model_idx c st :
  means c = None →
  analyze_single client model_idx (ArgComponent c) st
  = (Return ([], None), entered client model_idx (ArgComponent c) st).
Proof.
  intros Hm. unfold_single.
  simpl. by rewrite Hm.
Qed.

Lemma analyze_single_run client model_idx c m st :
  means c = Some m →
  analyze_single client model_idx (ArgComponent c) st
  = let values : gmap string (option string) :=
      {[ "means" := Some m; "ends" := ends c ]} in
    let '(r, w) := analyzer_run client model_idx values (world st) in
    (match r with
     | Return r => Return (violations (fst r), Some (snd r))
     | Raise e => Raise e
     end,
     mkState w (trace st ++ [CallAnalyzeSingle client model_idx (ArgComponent c);
                             CallRun client model_idx values])).
Proof.
  intros Hm.
  unfold_single.
  simpl. rewrite Hm. simpl.
  destruct (analyzer_run _ _ _ _) as [[r|e] w]; simpl;
    by rewrite <- app_assoc.
Qed.

Lemma analyze_single_int client model_idx z st :
  analyze_single client model_idx (ArgInt z) st
  = (Raise (AttributeError "'int' object has no attribute 'means'"),
     entered client model_idx (ArgInt z) st).
Proof. reflexivity. Qed.

(** The accumulator of the comprehension is a prefix of its result. *)
Lemma comprehension_acc client model_idx components acc st :
  comprehension client model_idx components acc st
  = match comprehension client model_idx components [] st with
    | (Return rs, st') => (Return (acc ++ rs), st')
    | (Raise e, st') => (Raise e, st')
    end.
Proof.
  revert acc st. induction components as [|x xs IH]; intros acc st; simpl.
  - unfold ret. by rewrite app_nil_r.
  - unfold bind. destruct (analyze_single _ _ _ _) as [[r|e] st1]; [|done].
    rewrite (IH (acc ++ [r])), (IH ([] ++ [r])).
    destruct (comprehension _ _ _ _ _) as [[rs|e] st2]; [|done].
    by rewrite <- app_assoc.
Qed.

Lemma comprehension_pointwise client model_idx components st rs st' :
  comprehension client model_idx components [] st = (Return rs, st') ↔
  pointwise (analyze_single client model_idx) components st rs st'.
Proof.
  revert st rs. induction components as [|x xs IH]; intros st rs; simpl.
  - unfold ret. split.
    + intros [= <- <-]. constructor.
    + inversion 1; subst. done.
  - unfold bind. split.
    + destruct (analyze_single _ _ _ _) as [[r|e] st1] eqn:Hx; [|done].
      rewrite comprehension_acc.
      destruct (comprehension _ _ _ _ _) as [[rs1|e] st2] eqn:Hxs; [|done].
      intros [= <- <-]. simpl. econstructor; [exact Hx|]. by apply IH.
    + inversion 1 as [|? ? ? r st1 rs1 ? Hx Hxs]; subst.
      rewrite Hx, comprehension_acc.
      apply IH in Hxs. by rewrite Hxs.
Qed.

Lemma pointwise_fmap {A B C} (g : A → B) (f : B → M C) xs st rs st' :
  pointwise f (g <$> xs) st rs st' ↔ pointwise (λ x, f (g x)) xs st rs st'.
Proof.
  revert st rs. induction xs as [|x xs IH]; intros st rs; simpl.
  - split; inversion 1; subst; constructor.
  - split; inversion 1; subst; econstructor; eauto; by apply IH.
Qed.

Lemma pointwise_length {A B} (f : A → M B) xs st rs st' :
  pointwise f xs st rs st' → length rs = length xs.
Proof. induction 1; simpl; congruence. Qed.

Lemma pointwise_lookup {A B} (f : A → M B) xs st rs st' k x :
  pointwise f xs st rs st' → xs !! k = Some x →
  ∃ r s s', rs !! k = Some r ∧ f x s = (Return r, s').
Proof.
  intros H. revert k. induction H as [|y ys st r st1 rs st2 Hy Hys IH];
    intros k Hk.
  - by rewrite lookup_nil in Hk.
  - destruct k as [|k]; simpl in *.
    + inversion Hk; subst. eauto.
    + by apply IH.
Qed.

(** C2. [__not_violated] is meant to pass its arguments on to
    [analyze_single] and to return what that call returns. It passes
    [component] where [model_idx] is expected and [model_idx] where
    [component] is, so that [analyze_single] reads [.means] off an
    integer: whenever the direct call returns a pair, [__not_violated]
    raises [AttributeError] instead, and the analyzer is never run. *)
Theorem not_violated_swaps_arguments client model_idx c st data usage w :
  truthy_opt (means c) = true →
  analyzer_run client (ArgInt model_idx)
    {[ "means" := means c; "ends" := ends c ]} (world st)
  = (Return (data, usage), w) →
  fst (analyze_single client (ArgInt model_idx) (ArgComponent c) st)
  = Return (violations data, Some usage)
  ∧ not_violated client model_idx c st
    = (Raise (AttributeError "'int' object has no attribute 'means'"),
       entered client (ArgComponent c) (ArgInt model_idx) st).
Proof.
  intros Ht Hrun. destruct (means c) as [m|] eqn:Hm; [|discriminate].
  split.
  - rewrite (analyze_single_run _ _ _ _ _ Hm). simpl. by rewrite Hrun.
  - unfold_not_violated. rewrite Hm, Ht. simpl.
    unfold bind. by rewrite analyze_single_int.
Qed.

(** C7. [analyze_list] is the pointwise map of [analyze_single]: it
    returns a list exactly when the calls on the components, made left
    to right, all return, and that list has the length of the input and
    holds at each index the result of the call on the component at that
    index. *)
Theorem analyze_list_pointwise_map client model_idx components st :
  let f c := analyze_single client (ArgInt model_idx) (ArgComponent c) in
  (∀ rs st',
      analyze_list client model_idx components st = (Return rs, st') ↔
      pointwise f components st rs st') ∧
  (∀ rs st',
      analyze_list client model_idx components st = (Return rs, st') →
      length rs = length components ∧
      ∀ k c, components !! k = Some c →
             ∃ r s s', rs !! k = Some r ∧ f c s = (Return r, s')).
Proof.
  intros f.
  assert (∀ rs st',
      analyze_list client model_idx components st = (Return rs, st') ↔
      pointwise f components st rs st') as Hiff.
  { intros rs st'. unfold_list.
    rewrite comprehension_pointwise.
    apply (pointwise_fmap ArgComponent
             (analyze_single client (ArgInt model_idx))). }
  split; [exact Hiff|].
  intros rs st' Hrs. apply Hiff in Hrs. split.
  - eapply pointwise_length; eauto.
  - intros k c Hk. eapply pointwise_lookup in Hk; eauto.
Qed.

(** C8. For a component whose [means] is [None], [analyze_single]
    returns the empty violation list and [None]; the world is left as it
    was and no call to the analyzer is made. *)
Theorem analyze_single_none_means client model_idx c st :
  means c = None →
  analyze_single client model_idx (ArgComponent c) st
  = (Return ([], None),
     mkState (world st)
             (trace st ++ [CallAnalyzeSingle client model_idx (ArgComponent c)])).
Proof. apply analyze_single_skip. Qed.

(** C10. For a component whose [means] is the empty string,
    [__not_violated] returns the empty violation list and [None] and
    calls nothing, while [analyze_single] goes past its test for [None]
    and runs the analyzer on the values of the component. *)
Theorem empty_means_two_entry_points client model_idx c st :
  means c = Some "" →
  not_violated client model_idx c st = (Return ([], None), st)
  ∧ analyze_single client (ArgInt model_idx) (ArgComponent c) st
    = let values : gmap string (option string) :=
        {[ "means" := Some ""; "ends" := ends c ]} in
      let '(r, w) := analyzer_run client (ArgInt model_idx) values (world st) in
      (match r with
       | Return r => Return (violations (fst r), Some (snd r))
       | Raise e => Raise e
       end,
       mkState w (trace st ++
                    [CallAnalyzeSingle client (ArgInt model_idx) (ArgComponent c);
                     CallRun client (ArgInt model_idx) values])).
Proof.
  intros Hm. split.
  - unfold_not_violated. by rewrite Hm.
  - by apply analyze_single_run.
Qed.

End AnalyzerFacts.


(** ** The entry points on the canned backend *)

Lemma not_violated_swaps_arguments_witness :
  truthy_opt (means story_login) = true ∧
  canned_run "gpt" (ArgInt 0)
    {[ "means" := means story_login; "ends" := ends story_login ]}
    (world start)
  = (Return (canned_data, 0), 1) ∧
  fst (analyze_single canned_run "gpt" (ArgInt 0) (ArgComponent story_login) start)
  = Return (violations canned_data, Some 0) ∧
  not_violated canned_run "gpt" 0 story_login start
  = (Raise (AttributeError "'int' object has no attribute 'means'"),
     entered "gpt" (ArgComponent story_login) (ArgInt 0) start).
Proof.
  split; [reflexivity|]. split; [vm_compute; reflexivity|].
  apply (not_violated_swaps_arguments canned_run "gpt" 0 story_login start
           canned_data 0 1).
  - reflexivity.
  - vm_compute; reflexivity.
Defined.

Lemma analyze_list_pointwise_map_witness :
  let rs := [([], None); (violations canned_data, Some 0)] in
  analyze_list canned_run "gpt" 0 [story_no_means; story_login] start
  = (Return rs,
     mkState 1
       [CallAnalyzeSingle "gpt" (ArgInt 0) (ArgComponent story_no_means);
        CallAnalyzeSingle "gpt" (ArgInt 0) (ArgComponent story_login);
        CallRun "gpt" (ArgInt 0)
          {[ "means" := Some "log in"; "ends" := Some "see my orders" ]}]) ∧
  length rs = 2 ∧
  ∃ r s s',
    rs !! 1 = Some r ∧
    analyze_single canned_run "gpt" (ArgInt 0) (ArgComponent story_login) s
    = (Return r, s').
Proof.
  intros rs.
  assert (analyze_list canned_run "gpt" 0 [story_no_means; story_login] start
          = (Return rs,
             mkState 1
               [CallAnalyzeSingle "gpt" (ArgInt 0) (ArgComponent story_no_means);
                CallAnalyzeSingle "gpt" (ArgInt 0) (ArgComponent story_login);
                CallRun "gpt" (ArgInt 0)
                  {[ "means" := Some "log in"; "ends" := Some "see my orders" ]}]))
    as Hrun by (vm_compute; reflexivity).
  split; [exact Hrun|].
  destruct (analyze_list_pointwise_map canned_run "gpt" 0
              [story_no_means; story_login] start) as [_ Hmap].
  destruct (Hmap _ _ Hrun) as [Hlen Hnth].
  split; [exact Hlen|].
  exact (Hnth 1 story_login eq_refl).
Defined.

Lemma analyze_single_none_means_witness :
  means story_no_means = None ∧
  analyze_single canned_run "gpt" (ArgInt 0) (ArgComponent story_no_means) start
  = (Return ([], None),
     mkState 0 [CallAnalyzeSingle "gpt" (ArgInt 0) (ArgComponent story_no_means)]).
Proof.
  split; [reflexivity|].
  apply (analyze_single_none_means canned_run "gpt" (ArgInt 0)
           story_no_means start).
  reflexivity.
Defined.

Lemma empty_means_two_entry_points_witness :
  means story_empty_means = Some "" ∧
  not_violated canned_run "gpt" 0 story_empty_means start
  = (Return ([], None), start) ∧
  analyze_single canned_run "gpt" (ArgInt 0) (ArgComponent story_empty_means) start
  = (Return (violations canned_data, Some 0),
     mkState 1
       [CallAnalyzeSingle "gpt" (ArgInt 0) (ArgComponent story_empty_means);
        CallRun "gpt" (ArgInt 0) {[ "means" := Some ""; "ends" := None ]}]).
Proof.
  split; [reflexivity|].
  destruct (empty_means_two_entry_points canned_run "gpt" 0
              story_empty_means start eq_refl) as [Hnv Has].
  split; [exact Hnv|].
  rewrite Has. vm_compute. reflexivity.
Defined.

(** * Further properties of the parser *)

Lemma collect_filter_dict tmp acc :
  collect (List.filter is_dict tmp) acc = collect tmp acc.
Proof.
  revert acc. induction tmp as [|t tmp IH]; intros acc; [done|].
  destruct t; simpl; try apply IH.
  destruct (part_map_get _); [apply IH|done].
Qed.

Lemma entry_violation_dicts tmp :
  Forall2 (λ t vio, ∃ d, t = PyDict d ∧
             parts vio = parts_of (part_of_key (dict_get d "part" (PyStr ""))) ∧
             issue vio = dict_get d "issue" (PyStr "") ∧
             suggestion vio = dict_get d "suggestion" PyNone)
          (List.filter is_dict tmp) (omap entry_violation tmp).
Proof.
  induction tmp as [|t tmp IH]; [constructor|].
  destruct t; simpl; try exact IH.
  constructor; [|exact IH]. eauto.
Qed.

Lemma entry_violation_none tmp :
  List.filter is_dict tmp = [] → omap entry_violation tmp = [].
Proof.
  intros H. pose proof (entry_violation_dicts tmp) as HF. rewrite H in HF.
  by inversion HF.
Qed.

Lemma entries_ok_without_dicts tmp :
  List.filter is_dict tmp = [] → forallb entry_ok tmp = true.
Proof.
  induction tmp as [|t tmp IH]; [done|].
  destruct t; simpl; try exact IH. discriminate.
Qed.

(** X1. The parser has two outcomes only: it returns a verdict, exactly
    on the inputs all of whose dict entries have a hashable ["part"], and
    on every other input it raises the [TypeError] of an unhashable
    value. *)
Theorem parser_returns_or_type_error raw_json :
  (parses raw_json = true ∧ ∃ v, parser raw_json = Return v) ∨
  (parses raw_json = false ∧ is_dict raw_json = true ∧
   ∃ k, hashable k = false ∧ parser raw_json = Raise (unhashable k)).
Proof.
  destruct (parses raw_json) eqn:Hp.
  - left. split; [done|]. by apply parser_returns_iff.
  - right. split; [done|]. destruct raw_json; try discriminate.
    split; [done|]. by apply parser_dict_raise.
Qed.

(** X2. On a dict input the returned violation list is empty exactly when
    the verdict is truthy and the ["violations"] list has no dict entry:
    a falsy verdict always comes with at least one violation. *)
Theorem parser_dict_empty_violations_iff raw v :
  parser (PyDict raw) = Return v →
  (violations v = [] ↔
   truthy (valid v) = true ∧ List.filter is_dict (violation_entries raw) = []).
Proof.
  intros Hv. rewrite (parser_violations _ _ Hv). unfold with_placeholder.
  pose proof (entry_violation_dicts (violation_entries raw)) as HF.
  destruct (omap entry_violation (violation_entries raw)) as [|vio vs] eqn:Ho.
  - inversion HF as [Hnil|]. simpl.
    destruct (truthy (valid v)); simpl; split; try done.
    + by intros [? _].
  - rewrite andb_false_r. split; [done|].
    intros [_ Hnil]. rewrite Hnil in HF. inversion HF.
Qed.

Lemma parser_dict_empty_violations_iff_witness :
  let raw : gmap string pyval :=
    {[ "valid" := PyStr "yes"; "violations" := PyList [PyInt 1] ]} in
  parser (PyDict raw)
  = Return (mkCSVerdictData (PyBool false) [default_vio]) ∧
  ([default_vio] = [] ↔
   truthy (PyBool false) = true ∧
   List.filter is_dict (violation_entries raw) = []).
Proof.
  intros raw. split; [vm_compute; reflexivity|].
  exact (parser_dict_empty_violations_iff raw
           (mkCSVerdictData (PyBool false) [default_vio]) eq_refl).
Defined.

(** X3. The [parts] of a violation in a returned verdict take one of
    three values: the set holding ["means"], the set holding ["ends"], or
    the empty [{}]. *)
Theorem parser_parts_three_values raw_json v vio :
  parser raw_json = Return v → vio ∈ violations v →
  parts vio = PartsSet {[ "means" ]} ∨
  parts vio = PartsSet {[ "ends" ]} ∨
  parts vio = PartsDict ∅.
Proof.
  intros Hv Hin. destruct (is_dict raw_json) eqn:Hd.
  - destruct raw_json; try discriminate.
    rewrite (parser_violations _ _ Hv) in Hin. unfold with_placeholder in Hin.
    assert (vio = default_vio ∨
            vio ∈ omap entry_violation (violation_entries d)) as [->|Hin'].
    { destruct (_ && _); [|by right].
      apply elem_of_app in Hin as [?|Hin]; [by right|].
      left. by apply list_elem_of_singleton in Hin. }
    + by right; right.
    + apply list_elem_of_omap in Hin' as (t & _ & Ht).
      destruct t; try discriminate. simpl in Ht. inversion Ht; subst; simpl.
      destruct (part_of_key _) as [p|] eqn:Hp; simpl; [|by right; right].
      destruct (dict_get d0 "part" (PyStr "")); try discriminate.
      simpl in Hp. apply part_map_values in Hp as [[_ ->]|[_ ->]]; simpl; auto.
  - rewrite (parser_non_dict _ Hd) in Hv. inversion Hv; subst. simpl in Hin.
    by apply elem_of_nil in Hin.
Qed.

Lemma parser_parts_three_values_witness :
  let vio := mkViolation (PartsSet {[ "ends" ]}) (PyStr "states a feature")
                         (PyStr "state the benefit") in
  parser canned_reply = Return canned_data ∧
  vio ∈ violations canned_data ∧
  (parts vio = PartsSet {[ "means" ]} ∨
   parts vio = PartsSet {[ "ends" ]} ∨
   parts vio = PartsDict ∅).
Proof.
  intros vio.
  assert (parser canned_reply = Return canned_data) as Hp
    by (vm_compute; reflexivity).
  assert (vio ∈ violations canned_data) as Hin by (left).
  split; [exact Hp|]. split; [exact Hin|].
  exact (parser_parts_three_values canned_reply canned_data vio Hp Hin).
Defined.

(** X4. When the parser returns on a dict input whose ["violations"] list
    has a dict entry, the violations are those entries' violations, one
    for each and in the order of the list: the issue is the entry's
    ["issue"] or [""], the suggestion its ["suggestion"] or [None], the
    parts what [_PART_MAP] gives for its ["part"]. The verdict's [valid]
    plays no role. *)
Theorem parser_one_violation_per_dict_entry raw v :
  parser (PyDict raw) = Return v →
  List.filter is_dict (violation_entries raw) ≠ [] →
  Forall2 (λ t vio, ∃ d, t = PyDict d ∧
             parts vio = parts_of (part_of_key (dict_get d "part" (PyStr ""))) ∧
             issue vio = dict_get d "issue" (PyStr "") ∧
             suggestion vio = dict_get d "suggestion" PyNone)
          (List.filter is_dict (violation_entries raw)) (violations v).
Proof.
  intros Hv Hne. rewrite (parser_violations _ _ Hv). unfold with_placeholder.
  pose proof (entry_violation_dicts (violation_entries raw)) as HF.
  destruct (omap entry_violation (violation_entries raw)) as [|vio vs] eqn:Ho.
  - inversion HF as [Hnil|]. congruence.
  - by rewrite andb_false_r.
Qed.

Lemma parser_one_violation_per_dict_entry_witness :
  let raw : gmap string pyval :=
    {[ "valid" := PyBool true;
       "violations" :=
         PyList [PyStr "noise";
                 PyDict {[ "part" := PyStr "[Means]"; "issue" := PyStr "two actions" ]}] ]} in
  ∃ v, parser (PyDict raw) = Return v ∧
       valid v = PyBool true ∧
       Forall2 (λ t vio, ∃ d, t = PyDict d ∧
                  parts vio = parts_of (part_of_key (dict_get d "part" (PyStr ""))) ∧
                  issue vio = dict_get d "issue" (PyStr "") ∧
                  suggestion vio = dict_get d "suggestion" PyNone)
               (List.filter is_dict (violation_entries raw)) (violations v).
Proof.
  intros raw.
  exists (mkCSVerdictData (PyBool true)
            [mkViolation (PartsSet {[ "means" ]}) (PyStr "two actions") PyNone]).
  assert (parser (PyDict raw)
          = Return (mkCSVerdictData (PyBool true)
                      [mkViolation (PartsSet {[ "means" ]}) (PyStr "two actions") PyNone]))
    as Hp by (vm_compute; reflexivity).
  split; [exact Hp|]. split; [reflexivity|].
  apply (parser_one_violation_per_dict_entry raw _ Hp).
  vm_compute. discriminate.
Defined.

(** X5. When the ["violations"] list has no dict entry (or the key is
    missing, or its value is not a list), the parser returns, and the
    violations are the placeholder alone for a falsy verdict and nothing
    for a truthy one. *)
Theorem parser_placeholder_alone raw :
  List.filter is_dict (violation_entries raw) = [] →
  parser (PyDict raw)
  = Return (mkCSVerdictData (parse_valid raw)
              (if truthy (parse_valid raw) then [] else [default_vio])).
Proof.
  intros Hnil. rewrite parser_dict_ok by by apply entries_ok_without_dicts.
  rewrite (entry_violation_none _ Hnil). unfold with_placeholder.
  by destruct (truthy (parse_valid raw)).
Qed.

Lemma parser_placeholder_alone_witness :
  let raw : gmap string pyval :=
    {[ "valid" := PyInt 0; "violations" := PyStr "none" ]} in
  List.filter is_dict (violation_entries raw) = [] ∧
  parser (PyDict raw) = Return (mkCSVerdictData (PyInt 0) [default_vio]).
Proof.
  intros raw. split; [reflexivity|].
  exact (parser_placeholder_alone raw eq_refl).
Defined.

(** X6. The parser reads the keys ["valid"] and ["violations"] only:
    setting any other key of the input dict changes nothing, neither the
    verdict nor an exception. *)
Theorem parser_ignores_other_keys raw k x :
  k ≠ "valid" → k ≠ "violations" →
  parser (PyDict (<[ k := x ]> raw)) = parser (PyDict raw).
Proof.
  intros Hvalid Hvio. unfold parser, parse_valid, dict_get.
  by rewrite !lookup_insert_ne.
Qed.

Lemma parser_ignores_other_keys_witness :
  parser (PyDict (<[ "confidence" := PyFloat (S754_zero false) ]>
                    {[ "valid" := PyStr "true" ]}))
  = parser (PyDict {[ "valid" := PyStr "true" ]}).
Proof.
  apply (parser_ignores_other_keys {[ "valid" := PyStr "true" ]}
           "confidence" (PyFloat (S754_zero false))); discriminate.
Defined.

(** X7. Entries of the ["violations"] list that are not dicts count for
    nothing: dropping them from the list leaves the outcome of the
    parser, verdict or exception, as it is. *)
Theorem parser_skips_non_dict_entries raw tmp :
  parser (PyDict (<[ "violations" := PyList tmp ]> raw))
  = parser (PyDict (<[ "violations" := PyList (List.filter is_dict tmp) ]> raw)).
Proof.
  unfold parser, parse_valid, dict_get.
  rewrite !lookup_insert_eq, !lookup_insert_ne by done. simpl.
  by rewrite collect_filter_dict.
Qed.



Lemma collect_app tmp1 tmp2 acc :
  collect (tmp1 ++ tmp2) acc
  = match collect tmp1 acc with
    | Return vs => collect tmp2 vs
    | Raise e => Raise e
    end.
Proof.
  revert acc. induction tmp1 as [|t tmp1 IH]; intros acc; [done|].
  destruct t; simpl; try apply IH.
  destruct (part_map_get _); [apply IH|done].
Qed.

(** X15. Of a violation entry the parser reads the keys ["part"],
    ["issue"] and ["suggestion"] only: setting any other key of an entry,
    wherever the entry stands in the list, leaves the outcome as it is. *)
Theorem parser_ignores_other_entry_keys raw pre t post k x :
  k ≠ "part" → k ≠ "issue" → k ≠ "suggestion" →
  parser (PyDict (<[ "violations" :=
                       PyList (pre ++ PyDict (<[ k := x ]> t) :: post) ]> raw))
  = parser (PyDict (<[ "violations" :=
                         PyList (pre ++ PyDict t :: post) ]> raw)).
Proof.
  intros Hpart Hissue Hsugg. unfold parser, parse_valid, dict_get.
  rewrite !lookup_insert_eq, !lookup_insert_ne by done. simpl.
  rewrite !collect_app. destruct (collect pre []) as [vs|e]; [|done].
  simpl. unfold dict_get. by rewrite !lookup_insert_ne.
Qed.

Lemma parser_ignores_other_entry_keys_witness :
  parser (PyDict (<[ "violations" :=
                       PyList ([PyInt 7] ++
                               PyDict (<[ "severity" := PyStr "high" ]>
                                         {[ "part" := PyStr "[Ends]" ]}) :: []) ]> ∅))
  = parser (PyDict (<[ "violations" :=
                         PyList ([PyInt 7] ++
                                 PyDict {[ "part" := PyStr "[Ends]" ]} :: []) ]> ∅)).
Proof.
  apply (parser_ignores_other_entry_keys ∅ [PyInt 7]
           {[ "part" := PyStr "[Ends]" ]} [] "severity" (PyStr "high"));
    discriminate.
Defined.

(** X16. The part label is matched exactly: the lookup in [_PART_MAP]
    gives ["means"] for the string ["[Means]"] and for nothing else,
    ["ends"] for the string ["[Ends]"] and for nothing else, and it gives
    no other part. *)
Theorem part_label_exact_match k :
  (part_map_get k = Return (Some "means") ↔ k = PyStr "[Means]") ∧
  (part_map_get k = Return (Some "ends") ↔ k = PyStr "[Ends]") ∧
  (∀ p, part_map_get k = Return (Some p) → p = "means" ∨ p = "ends").
Proof.
  split; [|split].
  - split; [|by intros ->].
    destruct k; try discriminate. simpl. intros [= H].
    apply part_map_values in H as [[-> _]|[_ ?]]; [done|discriminate].
  - split; [|by intros ->].
    destruct k; try discriminate. simpl. intros [= H].
    apply part_map_values in H as [[_ ?]|[-> _]]; [discriminate|done].
  - intros p. destruct k; try discriminate. simpl. intros [= H].
    apply part_map_values in H as [[_ ->]|[_ ->]]; auto.
Qed.

Example part_label_lower_case :
  parser (PyDict {[ "violations" := PyList [PyDict {[ "part" := PyStr "[means]" ]}] ]})
  = Return (mkCSVerdictData (PyBool false)
              [mkViolation (PartsDict ∅) (PyStr "") PyNone]).
Proof. vm_compute. reflexivity. Qed.

(** * Further properties of the analysis entry points *)

Ltac unfold_run := unfold run, usage_dict, bind, ret.

Lemma run_calls_app {Client : Type} (tr1 tr2 : list (@event Client)) :
  run_calls (tr1 ++ tr2) = run_calls tr1 + run_calls tr2.
Proof. unfold run_calls. by rewrite List.filter_app, length_app. Qed.

Section EntryPointFacts.

Context {Client LLMResult World : Type}.
Variable analyzer_run :
  Client → pyarg → gmap string (option string) → World →
  outcome (CSVerdictData * LLMResult) * World.

Notation analyze_single := (analyze_single analyzer_run).
Notation comprehension := (comprehension analyzer_run).
Notation analyze_list := (analyze_list analyzer_run).
Notation not_violated := (not_violated analyzer_run).
Notation state := (@state Client World).

(** The comprehension over a concatenation goes through the first list
    and carries on with the second. *)
Lemma comprehension_app client model_idx xs ys acc (st : state) :
  comprehension client model_idx (xs ++ ys) acc st
  = match comprehension client model_idx xs acc st with
    | (Return rs, st1) => comprehension client model_idx ys rs st1
    | (Raise e, st1) => (Raise e, st1)
    end.
Proof.
  revert acc st. induction xs as [|x xs IH]; intros acc st; simpl; [done|].
  unfold bind. destruct (analyze_single _ _ _ _) as [[r|e] st1]; [|done].
  apply IH.
Qed.

(** One call of [analyze_single] on a component sends one request when
    the component has a means and none otherwise, whatever the outcome. *)
Lemma analyze_single_requests client model_idx c (st : state) :
  run_calls (trace (snd (analyze_single client model_idx (ArgComponent c) st)))
  = run_calls (trace st) + (if has_means c then 1 else 0).
Proof.
  unfold has_means. destruct (means c) as [m|] eqn:Hm.
  - rewrite (analyze_single_run analyzer_run _ _ _ _ _ Hm). simpl.
    destruct (analyzer_run _ _ _ _) as [r w]. simpl.
    by rewrite run_calls_app.
  - rewrite (analyze_single_skip analyzer_run _ _ _ _ Hm).
    unfold entered. simpl. rewrite run_calls_app.
    unfold run_calls. simpl. lia.
Qed.

(** X9. [analyze_list] is sequential composition: on a concatenation it
    analyses the first list, then the second from the state the first
    left, and returns the two result lists joined; an exception in either
    part is the exception of the whole. *)
Theorem analyze_list_app client model_idx xs ys (st : state) :
  analyze_list client model_idx (xs ++ ys) st
  = match analyze_list client model_idx xs st with
    | (Return rs1, st1) =>
        match analyze_list client model_idx ys st1 with
        | (Return rs2, st2) => (Return (rs1 ++ rs2), st2)
        | (Raise e, st2) => (Raise e, st2)
        end
    | (Raise e, st1) => (Raise e, st1)
    end.
Proof.
  unfold_list. rewrite fmap_app, comprehension_app.
  destruct (comprehension _ _ (ArgComponent <$> xs) _ _) as [[rs1|e] st1];
    [|done].
  apply comprehension_acc.
Qed.

(** X10. [analyze_list] stops at the first component whose analysis
    raises: the exception is raised by [analyze_list] itself, the results
    obtained so far are lost, and the components after it are not
    analysed, the state being the one that failing call left. *)
Theorem analyze_list_stops_at_first_raise
    client model_idx pre c post (st : state) rs st1 e st2 :
  analyze_list client model_idx pre st = (Return rs, st1) →
  analyze_single client (ArgInt model_idx) (ArgComponent c) st1 = (Raise e, st2) →
  analyze_list client model_idx (pre ++ c :: post) st = (Raise e, st2).
Proof.
  unfold_list. intros Hpre Hc.
  rewrite fmap_app, comprehension_app, Hpre. simpl.
  unfold bind. by rewrite Hc.
Qed.

(** X11. When [analyze_list] returns, it has sent one request to the
    analyzer for each component with a means and none for the others. *)
Theorem analyze_list_requests client model_idx components (st : state) rs st' :
  analyze_list client model_idx components st = (Return rs, st') →
  run_calls (trace st')
  = run_calls (trace st) + List.length (List.filter has_means components).
Proof.
  unfold_list. rewrite comprehension_pointwise, pointwise_fmap.
  induction 1 as [st|c cs st r st1 rs st2 Hc _ IH]; simpl; [lia|].
  rewrite IH.
  pose proof (analyze_single_requests client (ArgInt model_idx) c st) as Hreq.
  rewrite Hc in Hreq. simpl in Hreq. rewrite Hreq.
  destruct (has_means c); simpl; lia.
Qed.

(** X12. On components none of which has a means, [analyze_list] returns
    the pair of the empty list and [None] for each of them, leaves the
    world as it was and sends no request. *)
Theorem analyze_list_without_means client model_idx components (st : state) :
  forallb (λ c, negb (has_means c)) components = true →
  analyze_list client model_idx components st
  = (Return (replicate (List.length components) ([], None)),
     mkState (world st)
       (trace st ++
          ((λ c, CallAnalyzeSingle client (ArgInt model_idx) (ArgComponent c))
             <$> components))).
Proof.
  intros Hall. apply comprehension_pointwise, pointwise_fmap.
  revert st. induction components as [|c cs IH]; intros st; simpl in *.
  - rewrite app_nil_r. destruct st. constructor.
  - apply andb_prop in Hall as [Hc Hcs].
    econstructor.
    + apply analyze_single_skip. unfold has_means in Hc.
      by destruct (means c).
    + specialize (IH Hcs (entered client (ArgInt model_idx) (ArgComponent c) st)).
      simpl in IH. by rewrite <- app_assoc in IH.
Qed.

(** X13. [__not_violated] never reaches the analyzer. With a means that
    is [None] or empty it returns the empty list and [None] and calls
    nothing; with any other means the call of [analyze_single] raises
    [AttributeError] before a request is sent. The world is unchanged in
    both cases. *)
Theorem not_violated_never_runs_analyzer client model_idx c (st : state) :
  not_violated client model_idx c st
  = (if truthy_opt (means c)
     then (Raise (AttributeError "'int' object has no attribute 'means'"),
           entered client (ArgComponent c) (ArgInt model_idx) st)
     else (Return ([], None), st))
  ∧ world (snd (not_violated client model_idx c st)) = world st
  ∧ run_calls (trace (snd (not_violated client model_idx c st)))
    = run_calls (trace st).
Proof.
  unfold_not_violated. destruct (truthy_opt (means c)); simpl.
  - unfold bind. rewrite analyze_single_int. simpl.
    split; [done|]. split; [done|].
    rewrite run_calls_app. unfold run_calls. simpl. lia.
  - by unfold ret.
Qed.

End EntryPointFacts.

Section PipelineFacts.

Context {Client LLMResult World : Type}.
Variable analyzer_run :
  Client → pyarg → gmap string (option string) → World →
  outcome (CSVerdictData * LLMResult) * World.
Variable analyze_individual_with_llm :
  list (Client → Z → QUSComponent →
        @M Client World (list Violation * option LLMResult)) →
  Client → Z → QUSComponent →
  @M Client World (list Violation * list (option LLMResult)).

(** X14. [ConceptuallySoundAnalyzer.run] hands over the violations it
    receives unchanged and keeps of the usages at most the first one: the
    usage dict is [{"conceptually-sound": r}] when the first usage is an
    object [r], and empty when there is no usage or the first is [None];
    further usages are dropped. An exception of the helper is raised
    unchanged. *)
Theorem run_keeps_first_usage client model_idx component
    (st : @state Client World) :
  run analyzer_run analyze_individual_with_llm client model_idx component st
  = match analyze_individual_with_llm [not_violated analyzer_run]
            client model_idx component st with
    | (Return (vs, usages), st') =>
        (Return (vs, match usages with
                     | Some r :: _ => {[ key := r ]}
                     | _ => ∅
                     end), st')
    | (Raise e, st') => (Raise e, st')
    end.
Proof.
  unfold_run.
  destruct (analyze_individual_with_llm _ _ _ _ _) as [[[vs usages]|e] st'];
    [|done].
  simpl. destruct usages as [|[r|] usages]; reflexivity.
Qed.

End PipelineFacts.

(** ** The further properties on concrete backends *)

Lemma analyze_list_stops_at_first_raise_witness :
  let st1 : @state string nat :=
    mkState 1
      [CallAnalyzeSingle "gpt" (ArgInt 0) (ArgComponent story_login);
       CallRun "gpt" (ArgInt 0)
         {[ "means" := Some "log in"; "ends" := Some "see my orders" ]}] in
  let st2 : @state string nat :=
    mkState 2 (trace st1 ++
      [CallAnalyzeSingle "gpt" (ArgInt 0) (ArgComponent story_login);
       CallRun "gpt" (ArgInt 0)
         {[ "means" := Some "log in"; "ends" := Some "see my orders" ]}]) in
  analyze_list flaky_run "gpt" 0 [story_login] start
  = (Return [(violations canned_data, Some 0)], st1) ∧
  analyze_single flaky_run "gpt" (ArgInt 0) (ArgComponent story_login) st1
  = (Raise (External "rate limit"), st2) ∧
  analyze_list flaky_run "gpt" 0
    ([story_login] ++ story_login :: [story_no_means]) start
  = (Raise (External "rate limit"), st2).
Proof.
  intros st1 st2.
  assert (analyze_list flaky_run "gpt" 0 [story_login] start
          = (Return [(violations canned_data, Some 0)], st1)) as Hpre
    by (vm_compute; reflexivity).
  assert (analyze_single flaky_run "gpt" (ArgInt 0) (ArgComponent story_login) st1
          = (Raise (External "rate limit"), st2)) as Hc
    by (vm_compute; reflexivity).
  split; [exact Hpre|]. split; [exact Hc|].
  exact (analyze_list_stops_at_first_raise flaky_run "gpt" 0
           [story_login] story_login [story_no_means] start _ _ _ _ Hpre Hc).
Defined.

Lemma analyze_list_requests_witness :
  let st' : @state string nat :=
    mkState 1
      [CallAnalyzeSingle "gpt" (ArgInt 0) (ArgComponent story_no_means);
       CallAnalyzeSingle "gpt" (ArgInt 0) (ArgComponent story_login);
       CallRun "gpt" (ArgInt 0)
         {[ "means" := Some "log in"; "ends" := Some "see my orders" ]}] in
  analyze_list canned_run "gpt" 0 [story_no_means; story_login] start
  = (Return [([], None); (violations canned_data, Some 0)], st') ∧
  run_calls (trace st')
  = run_calls (trace start)
    + List.length (List.filter has_means [story_no_means; story_login]).
Proof.
  intros st'.
  assert (analyze_list canned_run "gpt" 0 [story_no_means; story_login] start
          = (Return [([], None); (violations canned_data, Some 0)], st')) as Hrun
    by (vm_compute; reflexivity).
  split; [exact Hrun|].
  exact (analyze_list_requests canned_run "gpt" 0
           [story_no_means; story_login] start _ _ Hrun).
Defined.

Lemma analyze_list_without_means_witness :
  forallb (λ c, negb (has_means c)) [story_no_means; story_no_means] = true ∧
  analyze_list canned_run "gpt" 0 [story_no_means; story_no_means] start
  = (Return [([], None); ([], None)],
     mkState 0
       [CallAnalyzeSingle "gpt" (ArgInt 0) (ArgComponent story_no_means);
        CallAnalyzeSingle "gpt" (ArgInt 0) (ArgComponent story_no_means)]).
Proof.
  split; [reflexivity|].
  exact (analyze_list_without_means canned_run "gpt" 0
           [story_no_means; story_no_means] start eq_refl).
Defined.

Lemma run_keeps_first_usage_witness :
  run canned_run each_checker "gpt" 0 story_empty_means start
  = (Return ([], ∅), start) ∧
  run canned_run each_checker "gpt" 0 story_login start
  = (Raise (AttributeError "'int' object has no attribute 'means'"),
     entered "gpt" (ArgComponent story_login) (ArgInt 0) start).
Proof.
  split.
  - rewrite (run_keeps_first_usage canned_run each_checker "gpt" 0
               story_empty_means start).
    reflexivity.
  - rewrite (run_keeps_first_usage canned_run each_checker "gpt" 0
               story_login start).
    reflexivity.
Defined.
